(** * libqtile/lazy.py: lazily evaluated command-graph calls

    A shallow embedding of [LazyCall] and [LazyCommandObject].  Python
    objects live in a store and are named by references, so that the
    in-place updates of [when] and the identity of the object it returns
    can be stated; dictionaries are finite maps; a call that may raise
    returns an [outcome].  The callables of a configuration file are
    references too, and their code is a parameter of [check]: it runs on
    the whole store. *)

From stdpp Require Import gmap strings list fin_maps.

(** ** The live window-manager object [q]

    Only the accessors used by lazy.py ([current_layout.name],
    [current_window], [current_window.floating]) and by the filters of its
    docstring ([current_group.name]) are modelled. *)
Module Qtile.
Record Window := { floating : bool }.
Record Layout := { name : string }.
Record Group := { group_name : string }.
Record t := {
  current_layout : Layout;
  current_window : option Window;   (* None when no window has focus *)
  current_group : Group
}.
End Qtile.

(** ** References, exceptions and outcomes *)

Definition loc := positive.

Inductive exn : Type :=
| KeyError (key : string)
| TypeError (what : string)
| UserException (payload : string)
| NoSuchObject (l : loc).
(* [NoSuchObject] has no Python counterpart: it is what the model answers
   when a reference that was never allocated is dereferenced. *)

Inductive outcome (A : Type) : Type :=
| Return (a : A)
| Raise (e : exn).
Arguments Return {A} a.
Arguments Raise {A} e.

(** ** State and exception monad *)

Definition M (S A : Type) : Type := S -> outcome A * S.

Definition ret {S A} (a : A) : M S A := fun s => (Return a, s).

Definition raise {S A} (e : exn) : M S A := fun s => (Raise e, s).

Definition bind {S A B} (m : M S A) (k : A -> M S B) : M S B :=
  fun s =>
    match m s with
    | (Return a, s') => k a s'
    | (Raise e, s') => (Raise e, s')
    end.

Notation "x <- m ;; k" := (bind m (fun x => k))
  (at level 100, m at next level, right associativity).
Notation "m ;;; k" := (bind m (fun _ => k))
  (at level 100, right associativity).

(** ** The classes of lazy.py *)

Section LazyCallModel.
(** [W] is the state outside the LazyCall objects that the user's code
    may read or write; [PyObj] the arguments of a call; [CommandGraphCall]
    comes from libqtile.command_graph and is used only through [selectors]
    and [name]; [UserCallable] are the references to the callables that a
    configuration passes as [filt : Callable[['Qtile'], bool]]. *)
Variable W : Type.
Variable PyObj : Type.
Variable CommandGraphCall : Type.
Variable UserCallable : Type.
Variable SelectorType : Type.
Variable CommandGraphNode : Type.
Variable call_selectors : CommandGraphCall -> list SelectorType.
Variable call_name : CommandGraphCall -> string.

(** The callables that [when] and [__init__] store. *)
Inductive Filter : Type :=
| bound_default_filter (self : loc)   (* self._default_filter *)
| lambda_True                         (* lambda q: True *)
| callable (u : UserCallable).        (* filt *)

(** What a per-layout rule dictionary holds under its two keys. *)
Inductive value : Type :=
| VBool (b : bool)
| VCallable (f : Filter).

Record LazyCall : Type := {
  _call : CommandGraphCall;
  _args : list PyObj;
  _kwargs : gmap string PyObj;
  _layout_rules : gmap string (gmap string value);   (* defaultdict(dict) *)
  _when_floating : bool;
  _filter : Filter
}.

Record store : Type := { heap : gmap loc LazyCall; world : W }.

(** The code of the user's callables.  It runs on the whole store: it may
    raise, write to [W], and reach the LazyCall objects as well. *)
Variable invoke : UserCallable -> Qtile.t -> M store bool.

(** Reading the object behind a reference. *)
Definition load (self : loc) : M store LazyCall :=
  fun s =>
    match heap s !! self with
    | Some c => (Return c, s)
    | None => (Raise (NoSuchObject self), s)
    end.

(** Overwriting the object behind a reference. *)
Definition put (self : loc) (c : LazyCall) : M store unit :=
  fun s => (Return tt, {| heap := <[self := c]> (heap s); world := world s |}).

(** *** Attribute assignments *)

Definition set_layout_rules (r : gmap string (gmap string value)) (c : LazyCall) : LazyCall :=
  {| _call := _call c; _args := _args c; _kwargs := _kwargs c;
     _layout_rules := r;
     _when_floating := _when_floating c; _filter := _filter c |}.

Definition set_when_floating (b : bool) (c : LazyCall) : LazyCall :=
  {| _call := _call c; _args := _args c; _kwargs := _kwargs c;
     _layout_rules := _layout_rules c;
     _when_floating := b; _filter := _filter c |}.

Definition set_filter (f : Filter) (c : LazyCall) : LazyCall :=
  {| _call := _call c; _args := _args c; _kwargs := _kwargs c;
     _layout_rules := _layout_rules c;
     _when_floating := _when_floating c; _filter := f |}.

Definition setattr (self : loc) (upd : LazyCall -> LazyCall) : M store unit :=
  c <- load self ;; put self (upd c).

(** *** Dictionary operations *)

(** [self._layout_rules[key]]: a defaultdict(dict) answers a missing key
    by inserting a new empty dictionary under it. *)
Definition defaultdict_getitem (self : loc) (key : string) : M store (gmap string value) :=
  c <- load self ;;
  match _layout_rules c !! key with
  | Some d => ret d
  | None => put self (set_layout_rules (<[key := ∅]> (_layout_rules c)) c) ;;; ret ∅
  end.

(** [self._layout_rules[layout][key] = v]. *)
Definition rule_setitem (self : loc) (layout key : string) (v : value) : M store unit :=
  d <- defaultdict_getitem self layout ;;
  setattr self (fun c => set_layout_rules (<[layout := <[key := v]> d]> (_layout_rules c)) c).

(** [d[key]] on a plain dict. *)
Definition dict_getitem (d : gmap string value) (key : string) : M store value :=
  match d !! key with
  | Some v => ret v
  | None => raise (KeyError key)
  end.

(** [key in self._layout_rules]. *)
Definition contains (self : loc) (key : string) : M store bool :=
  c <- load self ;; ret (bool_decide (is_Some (_layout_rules c !! key))).

(** *** Truth values *)

(** [bool(v)]: a callable is true. *)
Definition truthy (v : value) : bool :=
  match v with
  | VBool b => b
  | VCallable _ => true
  end.

(** [x and rhs] where [b] is the truth of [x]: [rhs] is evaluated only
    when [x] is true.  The only false [value] is [False] itself, so the
    left operand that Python returns in that case is [False]. *)
Definition py_and (b : bool) (rhs : M store bool) : M store bool :=
  if b then rhs else ret false.

(** [filt or dflt]: [None] is false, a callable is true. *)
Definition py_or (filt : option Filter) (dflt : Filter) : Filter :=
  match filt with
  | Some f => f
  | None => dflt
  end.

(** [q.current_window and q.current_window.floating]. *)
Definition floating_window (q : Qtile.t) : bool :=
  match Qtile.current_window q with
  | Some w => Qtile.floating w
  | None => false
  end.

(** *** class LazyCall *)

(** [LazyCall(call, args, kwargs)]: a new object, initialised by
    [__init__]. *)
Definition __init__ (call : CommandGraphCall) (args : list PyObj)
    (kwargs : gmap string PyObj) : M store loc :=
  fun s =>
    let self := fresh (dom (heap s)) in
    (Return self,
     {| heap := <[self := {| _call := call; _args := args; _kwargs := kwargs;
                             _layout_rules := ∅;
                             _when_floating := true;
                             _filter := bound_default_filter self |}]> (heap s);
        world := world s |}).

Definition selectors (self : loc) : M store (list SelectorType) :=
  c <- load self ;; ret (call_selectors (_call c)).

Definition name (self : loc) : M store string :=
  c <- load self ;; ret (call_name (_call c)).

Definition args (self : loc) : M store (list PyObj) :=
  c <- load self ;; ret (_args c).

Definition kwargs (self : loc) : M store (gmap string PyObj) :=
  c <- load self ;; ret (_kwargs c).

Definition when (self : loc) (layout : option string) (when_floating : bool)
    (filt : option Filter) : M store loc :=
  match layout with
  | Some layout =>
      rule_setitem self layout "when_floating" (VBool when_floating) ;;;
      rule_setitem self layout "filter" (VCallable (py_or filt lambda_True))
  | None =>
      setattr self (set_when_floating when_floating) ;;;
      setattr self (set_filter (py_or filt (bound_default_filter self)))
  end ;;;
  ret self.

Definition _default_filter (self : loc) (q : Qtile.t) : M store bool :=
  c <- load self ;;
  conj <- (if negb (size (_layout_rules c) =? 0)      (* bool(self._layout_rules) *)
           then has_rule <- contains self (Qtile.name (Qtile.current_layout q)) ;;
                ret (negb has_rule)
           else ret false) ;;                          (* an empty dict is false *)
  ret (negb conj).

(** Calling one of the stored callables on [q]. *)
Definition apply_filter (f : Filter) (q : Qtile.t) : M store bool :=
  match f with
  | bound_default_filter self => _default_filter self q
  | lambda_True => ret true
  | callable u => invoke u q
  end.

(** Calling whatever a rule dictionary holds. *)
Definition call_value (v : value) (q : Qtile.t) : M store bool :=
  match v with
  | VCallable f => apply_filter f q
  | VBool _ => raise (TypeError "'bool' object is not callable")
  end.

Definition check (self : loc) (q : Qtile.t) : M store bool :=
  let cur_layout := Qtile.name (Qtile.current_layout q) in
  if floating_window q then
    has_rule <- contains self cur_layout ;;
    if has_rule then
      d <- defaultdict_getitem self cur_layout ;;
      wf <- dict_getitem d "when_floating" ;;
      py_and (truthy wf)
        (d' <- defaultdict_getitem self cur_layout ;;
         f <- dict_getitem d' "filter" ;;
         call_value f q)
    else
      c <- load self ;;
      py_and (_when_floating c)
        (c' <- load self ;; apply_filter (_filter c') q)
  else
    has_rule <- contains self cur_layout ;;
    if has_rule then
      d <- defaultdict_getitem self cur_layout ;;
      f <- dict_getitem d "filter" ;;
      call_value f q
    else
      c <- load self ;;
      apply_filter (_filter c) q.

(** *** class LazyCommandObject *)

Definition execute (call : CommandGraphCall) (args : list PyObj)
    (kwargs : gmap string PyObj) : M store loc :=
  __init__ call args kwargs.

Definition has_command (node : CommandGraphNode) (command : string) : M store bool :=
  ret true.

Definition has_item (node : CommandGraphNode) (object_type : string)
    (item : string + Z) : M store bool :=
  ret true.

(** *** Chained calls

    [self.when(layout=l1, ...).when(layout=l2, ...) ...], as in the
    docstring of [when]: each call is made on the object that the call
    before it returned. *)
Fixpoint when_chain (self : loc) (rules : list (string * bool * option Filter))
    : M store loc :=
  match rules with
  | [] => ret self
  | (layout, when_floating, filt) :: rest =>
      self' <- when self (Some layout) when_floating filt ;;
      when_chain self' rest
  end.

(** ** Shape of the stores that the API builds *)

(** The dictionary left under a layout by the two assignments of [when],
    starting from the dictionary [d0] that was there. *)
Definition rule_dict (d0 : gmap string value) (when_floating : bool) (f : Filter)
    : gmap string value :=
  <["filter" := VCallable f]> (<["when_floating" := VBool when_floating]> d0).

(** A bound method keeps its object alive. *)
Definition filter_ok (h : gmap loc LazyCall) (f : Filter) : Prop :=
  match f with
  | bound_default_filter l => is_Some (h !! l)
  | lambda_True => True
  | callable _ => True
  end.

(** A rule dictionary holds a bool under "when_floating" and a callable
    under "filter". *)
Definition rule_ok (h : gmap loc LazyCall) (d : gmap string value) : Prop :=
  (exists b, d !! "when_floating" = Some (VBool b)) /\
  (exists f, d !! "filter" = Some (VCallable f) /\ filter_ok h f).

Definition call_ok (h : gmap loc LazyCall) (c : LazyCall) : Prop :=
  filter_ok h (_filter c) /\
  forall layout d, _layout_rules c !! layout = Some d -> rule_ok h d.

Definition store_ok (s : store) : Prop :=
  forall l c, heap s !! l = Some c -> call_ok (heap s) c.

(** The arguments a caller may pass as [filt]. *)
Definition filt_ok (h : gmap loc LazyCall) (filt : option Filter) : Prop :=
  match filt with
  | Some f => filter_ok h f
  | None => True
  end.

(** The rule table after one more per-layout [when], and after a chain of
    them. *)
Definition chain_step (t : gmap string (gmap string value))
    (r : string * bool * option Filter) : gmap string (gmap string value) :=
  <[r.1.1 := rule_dict (default ∅ (t !! r.1.1)) r.1.2 (py_or r.2 lambda_True)]> t.

Definition chain_table (t : gmap string (gmap string value))
    (rules : list (string * bool * option Filter)) : gmap string (gmap string value) :=
  foldl chain_step t rules.

(** No user callable is stored in the object: every filter is the
    default filter of some object or [lambda q: True]. *)
Definition builtin_filter (f : Filter) : Prop :=
  match f with
  | bound_default_filter _ => True
  | lambda_True => True
  | callable _ => False
  end.

(** Every filter stored in the object [self] is its own default filter or
    [lambda q: True]: what [__init__] and [when] without [filt] store. *)
Definition own_filter (self : loc) (f : Filter) : Prop :=
  f = bound_default_filter self \/ f = lambda_True.

Definition own_rules (self : loc) (c : LazyCall) : Prop :=
  own_filter self (_filter c) /\
  forall layout d f,
    _layout_rules c !! layout = Some d ->
    d !! "filter" = Some (VCallable f) -> own_filter self f.

Definition builtin_rules (c : LazyCall) : Prop :=
  builtin_filter (_filter c) /\
  forall layout d f,
    _layout_rules c !! layout = Some d ->
    d !! "filter" = Some (VCallable f) -> builtin_filter f.

End LazyCallModel.

Arguments bound_default_filter {UserCallable} self.
Arguments lambda_True {UserCallable}.
Arguments callable {UserCallable} u.
Arguments VBool {UserCallable} b.
Arguments VCallable {UserCallable} f.
Arguments truthy {UserCallable} v.
Arguments py_or {UserCallable} filt dflt.
Arguments rule_dict {UserCallable} d0 when_floating f.
Arguments Build_LazyCall {PyObj CommandGraphCall UserCallable}.
Arguments _call {PyObj CommandGraphCall UserCallable} l.
Arguments _args {PyObj CommandGraphCall UserCallable} l.
Arguments _kwargs {PyObj CommandGraphCall UserCallable} l.
Arguments _layout_rules {PyObj CommandGraphCall UserCallable} l.
Arguments _when_floating {PyObj CommandGraphCall UserCallable} l.
Arguments _filter {PyObj CommandGraphCall UserCallable} l.
Arguments set_layout_rules {PyObj CommandGraphCall UserCallable} r c.
Arguments set_when_floating {PyObj CommandGraphCall UserCallable} b c.
Arguments set_filter {PyObj CommandGraphCall UserCallable} f c.
Arguments filter_ok {PyObj CommandGraphCall UserCallable} h f.
Arguments rule_ok {PyObj CommandGraphCall UserCallable} h d.
Arguments call_ok {PyObj CommandGraphCall UserCallable} h c.
Arguments filt_ok {PyObj CommandGraphCall UserCallable} h filt.
Arguments Build_store {W PyObj CommandGraphCall UserCallable}.
Arguments heap {W PyObj CommandGraphCall UserCallable} s.
Arguments world {W PyObj CommandGraphCall UserCallable} s.
Arguments load {W PyObj CommandGraphCall UserCallable} self _.
Arguments put {W PyObj CommandGraphCall UserCallable} self c _.
Arguments setattr {W PyObj CommandGraphCall UserCallable} self upd _.
Arguments defaultdict_getitem {W PyObj CommandGraphCall UserCallable} self key _.
Arguments rule_setitem {W PyObj CommandGraphCall UserCallable} self layout key v _.
Arguments dict_getitem {W PyObj CommandGraphCall UserCallable} d key _.
Arguments contains {W PyObj CommandGraphCall UserCallable} self key _.
Arguments py_and {W PyObj CommandGraphCall UserCallable} b rhs _.
Arguments __init__ {W PyObj CommandGraphCall UserCallable} call args kwargs _.
Arguments args {W PyObj CommandGraphCall UserCallable} self _.
Arguments kwargs {W PyObj CommandGraphCall UserCallable} self _.
Arguments when {W PyObj CommandGraphCall UserCallable} self layout when_floating filt _.
Arguments _default_filter {W PyObj CommandGraphCall UserCallable} self q _.
Arguments apply_filter {W PyObj CommandGraphCall UserCallable} invoke f q _.
Arguments call_value {W PyObj CommandGraphCall UserCallable} invoke v q _.
Arguments check {W PyObj CommandGraphCall UserCallable} invoke self q _.
Arguments execute {W PyObj CommandGraphCall UserCallable} call args kwargs _.
Arguments store_ok {W PyObj CommandGraphCall UserCallable} s.
Arguments selectors {W PyObj CommandGraphCall UserCallable SelectorType} call_selectors self _.
Arguments name {W PyObj CommandGraphCall UserCallable} call_name self _.
Arguments has_command {W PyObj CommandGraphCall UserCallable CommandGraphNode} node command _.
Arguments has_item {W PyObj CommandGraphCall UserCallable CommandGraphNode} node object_type item _.

Arguments when_chain {W PyObj CommandGraphCall UserCallable} self rules _.
Arguments chain_step {UserCallable} t r.
Arguments chain_table {UserCallable} t rules.
Arguments builtin_filter {UserCallable} f.
Arguments own_filter {UserCallable} self f.
Arguments own_rules {PyObj CommandGraphCall UserCallable} self c.
Arguments builtin_rules {PyObj CommandGraphCall UserCallable} c.

Ltac run :=
  unfold check, _default_filter, when, rule_setitem, setattr, contains,
    defaultdict_getitem, dict_getitem, call_value, py_and, put, load,
    bind, ret, raise;
  simpl.

(** ** A configuration to evaluate the model on

    The binding [cmd = lazy.group.toscreen(1)] of a configuration file, the
    callables a user may attach to it and the states it is checked in. *)

(** What the user's code may write to: a log. *)
Definition World : Type := list string.

(** A call as its selectors and its command name. *)
Definition Call : Type := list string * string.

(** The callables of the configuration file. *)
Inductive user_callable : Type :=
| in_group_a     (* lambda q: q.current_group.name == 'a' *)
| logging        (* writes to the log, answers True *)
| failing        (* raises *)
| add_rule.      (* lambda q: bool(cmd.when(layout=q.current_layout.name)) *)

Definition Store : Type := store World Z Call user_callable.

(** The first object of a store. *)
Definition cmd : loc := 1%positive.

Definition user_code (u : user_callable) (q : Qtile.t) : M Store bool :=
  match u with
  | in_group_a =>
      ret (String.eqb (Qtile.group_name (Qtile.current_group q)) "a")
  | logging =>
      fun s => (Return true, {| heap := heap s; world := "called" :: world s |})
  | failing =>
      raise (UserException "boom")
  | add_rule =>
      when cmd (Some (Qtile.name (Qtile.current_layout q))) true None ;;;
      ret true
  end.

Definition empty_store : Store := {| heap := ∅; world := [] |}.

Definition state (layout : string) (window : option bool) (group : string) : Qtile.t :=
  {| Qtile.current_layout := {| Qtile.name := layout |};
     Qtile.current_window := option_map (fun b => {| Qtile.floating := b |}) window;
     Qtile.current_group := {| Qtile.group_name := group |} |}.

Definition toscreen : Call := (["group"], "toscreen").

(** [cmd = lazy.group.toscreen(1)] *)
Definition s_new : Store := (execute toscreen [1%Z] ∅ empty_store).2.

Definition c_new : LazyCall Z Call user_callable :=
  {| _call := toscreen; _args := [1%Z]; _kwargs := ∅;
     _layout_rules := ∅; _when_floating := true;
     _filter := bound_default_filter cmd |}.

(** [cmd.when(layout="columns")] *)
Definition s_columns : Store :=
  (when cmd (Some "columns") true None s_new).2.

Definition c_columns : LazyCall Z Call user_callable :=
  set_layout_rules {[ "columns" := rule_dict ∅ true lambda_True ]} c_new.

(** [cmd.when(layout="columns", when_floating=False, filt=u)] *)
Definition s_columns_tiled (u : user_callable) : Store :=
  (when cmd (Some "columns") false (Some (callable u)) s_new).2.

Definition c_columns_tiled (u : user_callable) : LazyCall Z Call user_callable :=
  set_layout_rules {[ "columns" := rule_dict ∅ false (callable u) ]} c_new.

(** [cmd.when(filt=u)] *)
Definition s_filtered (u : user_callable) : Store :=
  (when cmd None true (Some (callable u)) s_new).2.

Definition c_filtered (u : user_callable) : LazyCall Z Call user_callable :=
  set_filter (callable u) c_new.

(** [cmd.when(when_floating=False)] *)
Definition s_tiled : Store :=
  (when cmd None false None s_new).2.

(** [cmd.when(layout="columns", when_floating=False).when(layout="monadtall")],
    the second example of the docstring of [when]. *)
Definition docstring_rules : list (string * bool * option (Filter user_callable)) :=
  [("columns", false, None); ("monadtall", true, None)].

Definition s_docstring : Store := (when_chain cmd docstring_rules s_new).2.

(** A second binding, [cmd2 = lazy.group.toscreen(2)], beside [cmd]. *)
Definition cmd2 : loc := 2%positive.

Definition s_two : Store := (execute toscreen [2%Z] ∅ s_new).2.

(** * Properties *)

Section LazyCallProperties.
Variable W : Type.
Variable PyObj : Type.
Variable CommandGraphCall : Type.
Variable UserCallable : Type.
Variable SelectorType : Type.
Variable CommandGraphNode : Type.
Variable call_selectors : CommandGraphCall -> list SelectorType.
Variable call_name : CommandGraphCall -> string.
Variable invoke :
  UserCallable -> Qtile.t -> M (store W PyObj CommandGraphCall UserCallable) bool.

Implicit Types (s : store W PyObj CommandGraphCall UserCallable).
Implicit Types (c : LazyCall PyObj CommandGraphCall UserCallable).
Implicit Types (h : gmap loc (LazyCall PyObj CommandGraphCall UserCallable)).
Implicit Types (f : Filter UserCallable) (filt : option (Filter UserCallable)).
Implicit Types (d : gmap string (value UserCallable)) (v : value UserCallable).
Implicit Types (q : Qtile.t) (self l : loc) (w : W) (u : UserCallable).

(** ** What the assignments of [when] leave in the store *)

Lemma rule_setitem_eval s self c layout key v :
  heap s !! self = Some c ->
  rule_setitem self layout key v s =
    (Return tt,
     {| heap := <[self := set_layout_rules
                            (<[layout := <[key := v]> (default ∅ (_layout_rules c !! layout))]>
                               (_layout_rules c)) c]> (heap s);
        world := world s |}).
Proof.
  intros Hself. run. rewrite Hself.
  destruct (_layout_rules c !! layout) as [d|] eqn:Hd; simpl.
  - by rewrite Hself.
  - rewrite lookup_insert_eq. simpl. by rewrite !insert_insert_eq.
Qed.

Lemma when_layout_eval s self c layout when_floating filt :
  heap s !! self = Some c ->
  when self (Some layout) when_floating filt s =
    (Return self,
     {| heap := <[self := set_layout_rules
                            (<[layout := rule_dict (default ∅ (_layout_rules c !! layout))
                                           when_floating (py_or filt lambda_True)]>
                               (_layout_rules c)) c]> (heap s);
        world := world s |}).
Proof.
  intros Hself. unfold when, bind.
  rewrite (rule_setitem_eval _ _ _ _ _ _ Hself).
  erewrite rule_setitem_eval by apply lookup_insert_eq.
  simpl. rewrite lookup_insert_eq. simpl. by rewrite !insert_insert_eq.
Qed.

Lemma when_global_eval s self c when_floating filt :
  heap s !! self = Some c ->
  when self None when_floating filt s =
    (Return self,
     {| heap := <[self := set_filter (py_or filt (bound_default_filter self))
                            (set_when_floating when_floating c)]> (heap s);
        world := world s |}).
Proof.
  intros Hself. run. rewrite Hself. simpl. rewrite lookup_insert_eq.
  simpl. by rewrite insert_insert_eq.
Qed.

(** ** Evaluation of [check], branch by branch *)

Section CheckBranches.
Variables (s : store W PyObj CommandGraphCall UserCallable) (self : loc)
  (c : LazyCall PyObj CommandGraphCall UserCallable) (q : Qtile.t).
Hypothesis Hself : heap s !! self = Some c.

Lemma check_eval_floating_rule d v :
  floating_window q = true ->
  _layout_rules c !! Qtile.name (Qtile.current_layout q) = Some d ->
  d !! "when_floating" = Some v ->
  check invoke self q s =
    py_and (truthy v) (f <- dict_getitem d "filter" ;; call_value invoke f q) s.
Proof.
  intros Hfl Hd Hv. run. rewrite Hfl, Hself. simpl.
  rewrite Hd, bool_decide_eq_true_2 by eauto.
  rewrite Hself, Hd, Hv. destruct (truthy v); simpl; [|done].
  by rewrite Hself, Hd.
Qed.

Lemma check_eval_floating_global :
  floating_window q = true ->
  _layout_rules c !! Qtile.name (Qtile.current_layout q) = None ->
  check invoke self q s = py_and (_when_floating c) (apply_filter invoke (_filter c) q) s.
Proof.
  intros Hfl Hno. run. rewrite Hfl, Hself. simpl.
  rewrite Hno, bool_decide_eq_false_2 by apply is_Some_None.
  rewrite Hself. destruct (_when_floating c); simpl; [|done].
  by rewrite Hself.
Qed.

Lemma check_eval_rule d :
  floating_window q = false ->
  _layout_rules c !! Qtile.name (Qtile.current_layout q) = Some d ->
  check invoke self q s = (f <- dict_getitem d "filter" ;; call_value invoke f q) s.
Proof.
  intros Hfl Hd. run. rewrite Hfl, Hself. simpl.
  rewrite Hd, bool_decide_eq_true_2 by eauto.
  by rewrite Hself, Hd.
Qed.

Lemma check_eval_global :
  floating_window q = false ->
  _layout_rules c !! Qtile.name (Qtile.current_layout q) = None ->
  check invoke self q s = apply_filter invoke (_filter c) q s.
Proof.
  intros Hfl Hno. run. rewrite Hfl, Hself. simpl.
  rewrite Hno, bool_decide_eq_false_2 by apply is_Some_None.
  by rewrite Hself.
Qed.

Lemma default_filter_eval :
  _default_filter self q s =
    (Return (negb (negb (size (_layout_rules c) =? 0) &&
                   negb (bool_decide (is_Some
                     (_layout_rules c !! Qtile.name (Qtile.current_layout q)))))), s).
Proof.
  run. rewrite Hself.
  destruct (size (_layout_rules c) =? 0); simpl; [done|].
  by rewrite Hself.
Qed.

End CheckBranches.

(** C2: with a rule {when_floating = wf, filter = f} under the current
    layout and a floating current window, [check] is [wf and f(q)]; when
    [wf] is false the answer is False with the store untouched, whatever
    is stored under "filter" (so the filter is not called). *)
Theorem check_floating_layout_rule s self c q L d wf :
  heap s !! self = Some c ->
  _layout_rules c !! L = Some d ->
  d !! "when_floating" = Some (VBool wf) ->
  Qtile.name (Qtile.current_layout q) = L ->
  floating_window q = true ->
  (forall f, d !! "filter" = Some (VCallable f) ->
     check invoke self q s = py_and wf (apply_filter invoke f q) s) /\
  (wf = false -> check invoke self q s = (Return false, s)).
Proof.
  intros Hself Hd Hwf <- Hfl.
  rewrite (check_eval_floating_rule _ _ _ _ Hself _ _ Hfl Hd Hwf). split.
  - intros f Hf. destruct wf; simpl; [|done].
    unfold bind, dict_getitem. by rewrite Hf.
  - by intros ->.
Qed.

(** C3: with a rule whose filter is [f] under the current layout and no
    floating current window, [check] is [f(q)]; the rule's when_floating
    entry plays no part. *)
Theorem check_layout_rule_not_floating s self c q L d f :
  heap s !! self = Some c ->
  _layout_rules c !! L = Some d ->
  d !! "filter" = Some (VCallable f) ->
  Qtile.name (Qtile.current_layout q) = L ->
  floating_window q = false ->
  check invoke self q s = apply_filter invoke f q s.
Proof.
  intros Hself Hd Hf <- Hfl.
  rewrite (check_eval_rule _ _ _ _ Hself _ Hfl Hd).
  unfold bind, dict_getitem. by rewrite Hf.
Qed.

(** C4: with a floating current window and no rule under the current
    layout, [check] is [self._when_floating and self._filter(q)]; after
    [when(when_floating=False)] it is False in every such state. *)
Theorem check_floating_global s self c q :
  heap s !! self = Some c ->
  _layout_rules c !! Qtile.name (Qtile.current_layout q) = None ->
  floating_window q = true ->
  check invoke self q s = py_and (_when_floating c) (apply_filter invoke (_filter c) q) s /\
  (forall filt,
     let s1 := (when self None false filt s).2 in
     check invoke self q s1 = (Return false, s1)).
Proof.
  intros Hself Hno Hfl. split.
  - by apply check_eval_floating_global.
  - intros filt. rewrite (when_global_eval _ _ _ _ _ Hself). simpl.
    erewrite check_eval_floating_global; [|apply lookup_insert_eq|done|done].
    done.
Qed.

(** C1: with no floating current window and no rule under the current
    layout, a call whose global filter is still its own default filter
    answers False exactly when the rule table is non-empty (and the
    current layout, as assumed, is not one of its keys) and True
    otherwise; a call whose global filter was set by the user answers
    what that filter answers. *)
Theorem check_default_global_filter s self c q :
  heap s !! self = Some c ->
  _layout_rules c !! Qtile.name (Qtile.current_layout q) = None ->
  floating_window q = false ->
  (_filter c = bound_default_filter self ->
     exists b, check invoke self q s = (Return b, s) /\
       (b = false <->
          _layout_rules c <> ∅ /\
          _layout_rules c !! Qtile.name (Qtile.current_layout q) = None)) /\
  (forall u, _filter c = callable u -> check invoke self q s = invoke u q s).
Proof.
  intros Hself Hno Hfl.
  rewrite (check_eval_global _ _ _ _ Hself Hfl Hno). split.
  - intros ->. simpl. rewrite (default_filter_eval _ _ _ _ Hself).
    eexists. split; [reflexivity|].
    rewrite Hno, bool_decide_eq_false_2 by apply is_Some_None.
    rewrite andb_true_r, negb_false_iff, negb_true_iff, Nat.eqb_neq.
    rewrite map_size_empty_iff. tauto.
  - by intros u ->.
Qed.

(** ** Construction *)

Lemma init_eval s call a k :
  let self := fresh (dom (heap s)) in
  __init__ call a k s =
    (Return self,
     {| heap := <[self := {| _call := call; _args := a; _kwargs := k;
                             _layout_rules := ∅; _when_floating := true;
                             _filter := bound_default_filter self |}]> (heap s);
        world := world s |}) /\
  heap s !! self = None.
Proof.
  split; [done|]. apply not_elem_of_dom, is_fresh.
Qed.

(** C5: a call on which [when] was never called fires in every state. *)
Theorem check_fresh_call s call a k q :
  exists self s1,
    __init__ call a k s = (Return self, s1) /\
    check invoke self q s1 = (Return true, s1).
Proof.
  eexists _, _. split; [reflexivity|].
  destruct (floating_window q) eqn:Hfl.
  - erewrite check_eval_floating_global; [|apply lookup_insert_eq|done|done].
    simpl. by erewrite default_filter_eval by apply lookup_insert_eq.
  - erewrite check_eval_global; [|apply lookup_insert_eq|done|done].
    simpl. by erewrite default_filter_eval by apply lookup_insert_eq.
Qed.

(** ** Repeated calls of [when] *)

Lemma rule_dict_overwrite d0 wf1 f1 wf2 f2 :
  rule_dict (rule_dict d0 wf1 f1) wf2 f2 = rule_dict d0 wf2 f2.
Proof.
  unfold rule_dict.
  rewrite (insert_insert_ne _ "when_floating" "filter") by done.
  by rewrite !insert_insert_eq.
Qed.

Lemma when_unallocated s self layout when_floating filt :
  heap s !! self = None ->
  when self layout when_floating filt s = (Raise (NoSuchObject self), s).
Proof.
  intros Hno. destruct layout; run; by rewrite Hno.
Qed.

(** C6: a second [when] for the same layout (or a second [when] without
    layout) leaves exactly the store that this second call alone leaves,
    whatever the arguments of the first; in particular repeating a call
    with the same arguments changes nothing, and [check] cannot tell the
    two stores apart. *)
Theorem when_last_write_wins s self layout wf1 filt1 wf2 filt2 :
  let twice := (when self layout wf1 filt1 ;;; when self layout wf2 filt2) s in
  let once := when self layout wf2 filt2 s in
  twice = once /\ forall q, check invoke self q twice.2 = check invoke self q once.2.
Proof.
  simpl.
  assert ((when self layout wf1 filt1 ;;; when self layout wf2 filt2) s
          = when self layout wf2 filt2 s) as Heq; [|by rewrite Heq].
  unfold bind at 1.
  destruct (heap s !! self) as [c|] eqn:Hself.
  - destruct layout as [layout|].
    + rewrite (when_layout_eval _ _ _ _ _ _ Hself).
      erewrite when_layout_eval by apply lookup_insert_eq.
      rewrite (when_layout_eval _ _ _ _ _ _ Hself). simpl.
      rewrite lookup_insert_eq. simpl.
      by rewrite rule_dict_overwrite, !insert_insert_eq.
    + rewrite (when_global_eval _ _ _ _ _ Hself).
      erewrite when_global_eval by apply lookup_insert_eq.
      rewrite (when_global_eval _ _ _ _ _ Hself). simpl.
      by rewrite insert_insert_eq.
  - by rewrite !(when_unallocated _ _ _ _ _ Hself).
Qed.

(** C7: [when] with a layout rewrites the dictionary under that layout
    and nothing else: the call, its arguments, the global flag and
    filter, the rules of the other layouts, the other objects and the
    user's state stay as they were; [when] without a layout rewrites the
    global flag and filter and leaves the rule table as it was; both
    return the reference they were called on. *)
Theorem when_frame s self c when_floating filt :
  heap s !! self = Some c ->
  (forall layout, exists c',
     when self (Some layout) when_floating filt s =
       (Return self, {| heap := <[self := c']> (heap s); world := world s |}) /\
     _call c' = _call c /\ _args c' = _args c /\ _kwargs c' = _kwargs c /\
     _when_floating c' = _when_floating c /\ _filter c' = _filter c /\
     (forall other, other <> layout ->
        _layout_rules c' !! other = _layout_rules c !! other) /\
     _layout_rules c' !! layout =
       Some (rule_dict (default ∅ (_layout_rules c !! layout))
               when_floating (py_or filt lambda_True))) /\
  (exists c',
     when self None when_floating filt s =
       (Return self, {| heap := <[self := c']> (heap s); world := world s |}) /\
     _call c' = _call c /\ _args c' = _args c /\ _kwargs c' = _kwargs c /\
     _layout_rules c' = _layout_rules c /\
     _when_floating c' = when_floating /\
     _filter c' = py_or filt (bound_default_filter self)).
Proof.
  intros Hself. split.
  - intros layout. eexists. split; [by apply when_layout_eval|]. simpl.
    repeat split; [|apply lookup_insert_eq].
    intros other Hne. by rewrite lookup_insert_ne.
  - eexists. split; [by apply when_global_eval|]. done.
Qed.

(** C9: [execute] returns a reference to a new object that holds the
    call, args and kwargs it was given, with every other object and the
    user's state untouched; [has_command] and [has_item] answer True. *)
Theorem execute_builds_lazy_call s call a k :
  (exists self s1 c,
     execute call a k s = (Return self, s1) /\
     heap s !! self = None /\
     heap s1 !! self = Some c /\
     (forall l, l <> self -> heap s1 !! l = heap s !! l) /\
     world s1 = world s /\
     _call c = call /\
     selectors call_selectors self s1 = (Return (call_selectors call), s1) /\
     name call_name self s1 = (Return (call_name call), s1) /\
     args self s1 = (Return a, s1) /\
     kwargs self s1 = (Return k, s1)) /\
  (forall (node : CommandGraphNode) command, has_command node command s = (Return true, s)) /\
  (forall (node : CommandGraphNode) object_type item, has_item node object_type item s = (Return true, s)).
Proof.
  split; [|done].
  destruct (init_eval s call a k) as [Heval Hnew].
  eexists _, _, _. split; [exact Heval|]. split; [exact Hnew|].
  split; [apply lookup_insert_eq|]. simpl.
  split; [by intros l Hl; rewrite lookup_insert_ne|].
  split; [done|]. split; [done|].
  unfold selectors, name, args, kwargs, bind, load, ret. simpl.
  by rewrite !lookup_insert_eq.
Qed.

(** ** What [check] does to the store *)

Lemma default_filter_store s l q :
  (_default_filter l q s).2 = s.
Proof.
  run. destruct (heap s !! l) as [c|] eqn:Hl; simpl; [|done].
  destruct (size (_layout_rules c) =? 0); simpl; [done|].
  by rewrite Hl.
Qed.

Lemma apply_filter_heap s f q :
  (forall u, f = callable u -> heap (invoke u q s).2 = heap s) ->
  heap (apply_filter invoke f q s).2 = heap s.
Proof.
  intros Hu. destruct f as [l| |u]; simpl.
  - by rewrite default_filter_store.
  - done.
  - by apply Hu.
Qed.

Lemma call_filter_entry_heap s d q :
  (forall u, d !! "filter" = Some (VCallable (callable u)) ->
     heap (invoke u q s).2 = heap s) ->
  heap ((f <- dict_getitem d "filter" ;; call_value invoke f q) s).2 = heap s.
Proof.
  intros Hu. unfold bind, dict_getitem.
  destruct (d !! "filter") as [[b|f]|]; simpl; try done.
  apply apply_filter_heap. intros u ->. by apply Hu.
Qed.

(** C10: provided the user's callable that governs the evaluation leaves
    the LazyCall objects alone, so does [check]: the rule table, the
    global flag and the global filter are afterwards what they were, and
    a current layout without a rule still has none, although indexing
    the defaultdict would have given it one. *)
Theorem check_preserves_rules s self c q :
  heap s !! self = Some c ->
  (forall u,
     (exists d,
        _layout_rules c !! Qtile.name (Qtile.current_layout q) = Some d /\
        d !! "filter" = Some (VCallable (callable u))) \/
     (_layout_rules c !! Qtile.name (Qtile.current_layout q) = None /\
      _filter c = callable u) ->
     heap (invoke u q s).2 = heap s) ->
  heap (check invoke self q s).2 = heap s /\
  exists c',
    heap (check invoke self q s).2 !! self = Some c' /\
    _layout_rules c' = _layout_rules c /\
    _when_floating c' = _when_floating c /\
    _filter c' = _filter c /\
    (_layout_rules c !! Qtile.name (Qtile.current_layout q) = None ->
     _layout_rules c' !! Qtile.name (Qtile.current_layout q) = None).
Proof.
  intros Hself Hu.
  assert (heap (check invoke self q s).2 = heap s) as Hheap.
  { destruct (floating_window q) eqn:Hfl;
      destruct (_layout_rules c !! Qtile.name (Qtile.current_layout q))
        as [d|] eqn:Hd.
    - destruct (d !! "when_floating") as [v|] eqn:Hv.
      + rewrite (check_eval_floating_rule _ _ _ _ Hself _ _ Hfl Hd Hv).
        unfold py_and. destruct (truthy v); [|done].
        apply call_filter_entry_heap. intros u Hf. apply Hu. left. eauto.
      + run. rewrite Hfl, Hself. simpl.
        rewrite Hd, bool_decide_eq_true_2 by eauto.
        by rewrite Hself, Hd, Hv.
    - rewrite (check_eval_floating_global _ _ _ _ Hself Hfl Hd).
      unfold py_and. destruct (_when_floating c); [|done].
      apply apply_filter_heap. intros u Hf. apply Hu. by right.
    - rewrite (check_eval_rule _ _ _ _ Hself _ Hfl Hd).
      apply call_filter_entry_heap. intros u Hf. apply Hu. left. eauto.
    - rewrite (check_eval_global _ _ _ _ Hself Hfl Hd).
      apply apply_filter_heap. intros u Hf. apply Hu. by right. }
  split; [exact Hheap|].
  exists c. by rewrite Hheap.
Qed.

(** ** The shape of the store is kept by the API *)

Lemma filter_ok_insert h l c f :
  filter_ok h f -> filter_ok (<[l := c]> h) f.
Proof.
  destruct f as [l0| |p]; simpl; try done.
  intros Hl0. destruct (decide (l = l0)) as [->|Hne].
  - rewrite lookup_insert_eq. eauto.
  - by rewrite lookup_insert_ne.
Qed.

Lemma rule_ok_insert h l c d :
  rule_ok h d -> rule_ok (<[l := c]> h) d.
Proof.
  intros [Hb (f & Hf & Hok)]. split; [done|].
  exists f. split; [done|]. by apply filter_ok_insert.
Qed.

Lemma call_ok_insert h l c c0 :
  call_ok h c0 -> call_ok (<[l := c]> h) c0.
Proof.
  intros [Hf Hrules]. split; [by apply filter_ok_insert|].
  intros layout d Hd. eapply rule_ok_insert, Hrules, Hd.
Qed.

Lemma store_ok_insert s l c w :
  store_ok s -> call_ok (<[l := c]> (heap s)) c ->
  store_ok {| heap := <[l := c]> (heap s); world := w |}.
Proof.
  intros Hs Hc l0 c0. simpl. destruct (decide (l = l0)) as [->|Hne].
  - rewrite lookup_insert_eq. by intros [= <-].
  - rewrite lookup_insert_ne by done. intros Hl0.
    by eapply call_ok_insert, Hs.
Qed.

Lemma store_ok_empty w :
  store_ok ({| heap := ∅; world := w |} : store W PyObj CommandGraphCall UserCallable).
Proof. intros l c. simpl. by rewrite lookup_empty. Qed.

Lemma init_store_ok s call a k :
  store_ok s -> store_ok (__init__ call a k s).2.
Proof.
  intros Hs. apply store_ok_insert; [done|]. split; simpl.
  - rewrite lookup_insert_eq. eauto.
  - intros layout d. by rewrite lookup_empty.
Qed.

Lemma rule_dict_ok h d0 when_floating f :
  filter_ok h f -> rule_ok h (rule_dict d0 when_floating f).
Proof.
  intros Hf. unfold rule_dict. split.
  - exists when_floating. rewrite lookup_insert_ne by done. apply lookup_insert_eq.
  - exists f. split; [apply lookup_insert_eq|done].
Qed.

Lemma when_store_ok s self layout when_floating filt :
  store_ok s -> filt_ok (heap s) filt ->
  store_ok (when self layout when_floating filt s).2.
Proof.
  intros Hs Hfilt. destruct (heap s !! self) as [c|] eqn:Hself.
  - destruct (Hs _ _ Hself) as [Hf Hrules]. destruct layout as [layout|].
    + rewrite (when_layout_eval _ _ _ _ _ _ Hself). simpl.
      apply store_ok_insert; [done|]. split; simpl.
      * by apply filter_ok_insert.
      * intros other d. destruct (decide (layout = other)) as [->|Hne].
        -- rewrite lookup_insert_eq. intros [= <-].
           apply rule_ok_insert, rule_dict_ok. by destruct filt.
        -- rewrite lookup_insert_ne by done. intros Hd.
           eapply rule_ok_insert, Hrules, Hd.
    + rewrite (when_global_eval _ _ _ _ _ Hself). simpl.
      apply store_ok_insert; [done|]. split; simpl.
      * destruct filt as [f|]; simpl; [by apply filter_ok_insert|].
        rewrite lookup_insert_eq. eauto.
      * intros other d Hd. eapply rule_ok_insert, Hrules, Hd.
  - by rewrite (when_unallocated _ _ _ _ _ Hself).
Qed.

Lemma apply_filter_Raise s f q e s' :
  filter_ok (heap s) f ->
  apply_filter invoke f q s = (Raise e, s') ->
  exists u, f = callable u /\ invoke u q s = (Raise e, s').
Proof.
  destruct f as [l| |u]; simpl.
  - intros [c Hl]. by rewrite (default_filter_eval _ _ _ _ Hl).
  - done.
  - eauto.
Qed.

(** C8: in a store built by the API, one rule governs an evaluation
    (the dictionary under the current layout, else the global flag and
    filter); [check] is the call of that rule's filter unless a floating
    window is refused beforehand.  So [check] returns a boolean when the
    filter does, the filter's exception is the exception of [check], and
    [check] raises nothing else: whatever it raises was raised by the
    user's predicate, on the same state. *)
Theorem check_raises_only_the_filter_exception s self c q :
  store_ok s ->
  heap s !! self = Some c ->
  exists (wf : bool) f,
    ((exists d,
        _layout_rules c !! Qtile.name (Qtile.current_layout q) = Some d /\
        d !! "when_floating" = Some (VBool wf) /\
        d !! "filter" = Some (VCallable f)) \/
     (_layout_rules c !! Qtile.name (Qtile.current_layout q) = None /\
      wf = _when_floating c /\ f = _filter c)) /\
    check invoke self q s =
      (if floating_window q && negb wf then (Return false, s)
       else apply_filter invoke f q s) /\
    (forall b s', apply_filter invoke f q s = (Return b, s') ->
       exists b' s'', check invoke self q s = (Return b', s'')) /\
    (forall e s', floating_window q && negb wf = false ->
       apply_filter invoke f q s = (Raise e, s') -> check invoke self q s = (Raise e, s')) /\
    (forall e s', check invoke self q s = (Raise e, s') ->
       exists u, f = callable u /\ invoke u q s = (Raise e, s')).
Proof.
  intros Hs Hself. destruct (Hs _ _ Hself) as [Hglobal Hrules].
  assert (exists (wf : bool) f,
    ((exists d,
        _layout_rules c !! Qtile.name (Qtile.current_layout q) = Some d /\
        d !! "when_floating" = Some (VBool wf) /\
        d !! "filter" = Some (VCallable f)) \/
     (_layout_rules c !! Qtile.name (Qtile.current_layout q) = None /\
      wf = _when_floating c /\ f = _filter c)) /\
    filter_ok (heap s) f /\
    check invoke self q s =
      (if floating_window q && negb wf then (Return false, s)
       else apply_filter invoke f q s)) as (wf & f & Hsel & Hok & Heq).
  { destruct (_layout_rules c !! Qtile.name (Qtile.current_layout q))
      as [d|] eqn:Hd.
    - destruct (Hrules _ _ Hd) as [[wf Hwf] (f & Hf & Hok)].
      exists wf, f. split; [left; eauto|]. split; [done|].
      destruct (floating_window q) eqn:Hfl; simpl.
      + rewrite (check_eval_floating_rule _ _ _ _ Hself _ _ Hfl Hd Hwf).
        destruct wf; simpl; [|done]. unfold bind, dict_getitem. by rewrite Hf.
      + rewrite (check_eval_rule _ _ _ _ Hself _ Hfl Hd).
        unfold bind, dict_getitem. by rewrite Hf.
    - exists (_when_floating c), (_filter c). split; [right; done|].
      split; [done|].
      destruct (floating_window q) eqn:Hfl; simpl.
      + rewrite (check_eval_floating_global _ _ _ _ Hself Hfl Hd).
        by destruct (_when_floating c).
      + by rewrite (check_eval_global _ _ _ _ Hself Hfl Hd). }
  exists wf, f. split; [done|]. split; [done|]. rewrite Heq.
  destruct (floating_window q && negb wf).
  - split; [eauto|]. split; done.
  - split; [eauto|]. split; [done|].
    intros e s'. by apply apply_filter_Raise.
Qed.

End LazyCallProperties.

(** * Chains and compositions of [when] *)

Section WhenComposition.
Variables W PyObj CommandGraphCall UserCallable : Type.
Variable invoke :
  UserCallable -> Qtile.t -> M (store W PyObj CommandGraphCall UserCallable) bool.

Implicit Types (s : store W PyObj CommandGraphCall UserCallable).
Implicit Types (c : LazyCall PyObj CommandGraphCall UserCallable).
Implicit Types (f : Filter UserCallable) (filt : option (Filter UserCallable)).
Implicit Types (t : gmap string (gmap string (value UserCallable))).
Implicit Types (d : gmap string (value UserCallable)).
Implicit Types (rules before after : list (string * bool * option (Filter UserCallable))).
Implicit Types (q : Qtile.t) (self : loc).

Lemma set_layout_rules_id c : set_layout_rules (_layout_rules c) c = c.
Proof. by destruct c. Qed.

Lemma when_chain_eval self rules :
  forall s c,
    heap s !! self = Some c ->
    when_chain self rules s =
      (Return self,
       {| heap := <[self := set_layout_rules (chain_table (_layout_rules c) rules) c]>
                    (heap s);
          world := world s |}).
Proof.
  induction rules as [|[[layout wf] filt] rest IH]; intros s c Hself; simpl.
  - unfold ret. f_equal. rewrite set_layout_rules_id, insert_id by done.
    by destruct s.
  - unfold bind. erewrite when_layout_eval by done.
    erewrite IH by apply lookup_insert_eq. simpl.
    by rewrite insert_insert_eq.
Qed.

Lemma chain_table_lookup_other rules :
  forall t layout,
    layout ∉ rules.*1.*1 -> chain_table t rules !! layout = t !! layout.
Proof.
  induction rules as [|[[l wf] filt] rest IH]; intros t layout Hnot; [done|].
  simpl in *. apply not_elem_of_cons in Hnot as [Hne Hnot].
  unfold chain_table in *. simpl. rewrite IH by done.
  unfold chain_step. simpl. by rewrite lookup_insert_ne.
Qed.

Lemma chain_table_lookup_last t before after layout wf filt :
  layout ∉ after.*1.*1 ->
  chain_table t (before ++ (layout, wf, filt) :: after) !! layout =
    Some (rule_dict (default ∅ (chain_table t before !! layout)) wf
            (py_or filt lambda_True)).
Proof.
  intros Hnot. unfold chain_table. rewrite foldl_app. simpl.
  fold (chain_table (chain_step (foldl chain_step t before) (layout, wf, filt)) after).
  rewrite chain_table_lookup_other by done.
  unfold chain_step. simpl. apply lookup_insert_eq.
Qed.

Lemma chain_table_nonempty rules :
  forall t, rules <> [] -> chain_table t rules <> ∅.
Proof.
  assert (forall rules t, t <> ∅ -> chain_table t rules <> ∅) as Hkeep.
  { intros rs. induction rs as [|r rest IH]; intros t Ht; [done|].
    unfold chain_table in *. simpl. apply IH. apply insert_non_empty. }
  intros t Hne. destruct rules as [|r rest]; [done|].
  unfold chain_table. simpl. apply Hkeep, insert_non_empty.
Qed.

Lemma rule_dict_when_floating d wf f :
  rule_dict d wf f !! "when_floating" = Some (VBool wf).
Proof. unfold rule_dict. rewrite lookup_insert_ne by done. apply lookup_insert_eq. Qed.

Lemma rule_dict_filter d wf f :
  rule_dict d wf f !! "filter" = Some (VCallable f).
Proof. apply lookup_insert_eq. Qed.

(** ** Chains of per-layout rules *)

(** X1: on a call that [execute] has just built, a chain of per-layout
    [when] calls makes an allow-list: in a layout that the chain does not
    name, [check] answers False as soon as the chain has one rule, with or
    without a floating window, and True when the chain is empty. *)
Theorem when_chain_refuses_other_layouts s0 call a k self s rules q :
  execute call a k s0 = (Return self, s) ->
  Qtile.name (Qtile.current_layout q) ∉ rules.*1.*1 ->
  check invoke self q (when_chain self rules s).2 =
    (Return (length rules =? 0), (when_chain self rules s).2).
Proof.
  intros Hexec Hnot.
  destruct (init_eval _ _ _ _ s0 call a k) as [Heval _].
  unfold execute in Hexec. rewrite Heval in Hexec.
  injection Hexec as <- <-.
  erewrite when_chain_eval by apply lookup_insert_eq. simpl.
  set (self := fresh (dom (heap s0))).
  set (t := chain_table ∅ rules).
  assert (t !! Qtile.name (Qtile.current_layout q) = None) as Hno.
  { unfold t. by rewrite chain_table_lookup_other, lookup_empty. }
  assert ((size t =? 0) = (length rules =? 0)) as Hsize.
  { destruct rules as [|r rest]; [done|]. simpl.
    apply Nat.eqb_neq. rewrite map_size_empty_iff.
    by apply chain_table_nonempty. }
  destruct (floating_window q) eqn:Hfl.
  - erewrite check_eval_floating_global; [|apply lookup_insert_eq|done|done].
    simpl. erewrite default_filter_eval by apply lookup_insert_eq. simpl.
    rewrite Hno, bool_decide_eq_false_2 by apply is_Some_None.
    by rewrite andb_true_r, negb_involutive, Hsize.
  - erewrite check_eval_global; [|apply lookup_insert_eq|done|done].
    simpl. erewrite default_filter_eval by apply lookup_insert_eq. simpl.
    rewrite Hno, bool_decide_eq_false_2 by apply is_Some_None.
    by rewrite andb_true_r, negb_involutive, Hsize.
Qed.


Lemma elem_of_layouts_split rules layout :
  layout ∈ rules.*1.*1 ->
  exists before wf filt after,
    rules = before ++ (layout, wf, filt) :: after /\ layout ∉ after.*1.*1.
Proof.
  induction rules as [|[[l wf] filt] rest IH]; simpl; intros Hin.
  - by apply elem_of_nil in Hin.
  - destruct (decide (layout ∈ rest.*1.*1)) as [Hrest|Hrest].
    + destruct (IH Hrest) as (before & wf' & filt' & after & -> & Hnot).
      by exists ((l, wf, filt) :: before), wf', filt', after.
    + apply elem_of_cons in Hin as [->|Hin]; [|done].
      by exists [], wf, filt, rest.
Qed.

(** X3: a chain of per-layout [when] calls on a live object never raises
    and returns the object it started from; it leaves the call, its
    arguments, the global flag and filter, every other object, the user's
    state and the rules of the layouts it does not name as they were, and
    every layout it names ends with a complete rule (a bool under
    "when_floating", a callable under "filter"). *)
Theorem when_chain_frame s self c rules :
  heap s !! self = Some c ->
  exists c',
    when_chain self rules s =
      (Return self, {| heap := <[self := c']> (heap s); world := world s |}) /\
    _call c' = _call c /\ _args c' = _args c /\ _kwargs c' = _kwargs c /\
    _when_floating c' = _when_floating c /\ _filter c' = _filter c /\
    (forall layout, layout ∉ rules.*1.*1 ->
       _layout_rules c' !! layout = _layout_rules c !! layout) /\
    (forall layout, layout ∈ rules.*1.*1 ->
       exists d (wf : bool) f,
         _layout_rules c' !! layout = Some d /\
         d !! "when_floating" = Some (VBool wf) /\
         d !! "filter" = Some (VCallable f)).
Proof.
  intros Hself. eexists. split; [by apply when_chain_eval|]. simpl.
  repeat split.
  - intros layout Hnot. by apply chain_table_lookup_other.
  - intros layout Hin.
    destruct (elem_of_layouts_split _ _ Hin)
      as (before & wf & filt & after & -> & Hnot).
    eexists _, wf, _. split; [by apply chain_table_lookup_last|].
    split; [apply rule_dict_when_floating|apply rule_dict_filter].
Qed.

(** ** Order of the calls *)

(** X4: two [when] calls for different layouts can be made in either
    order: the result and the store are the same. *)
Theorem when_layouts_commute s self layout1 wf1 filt1 layout2 wf2 filt2 :
  layout1 <> layout2 ->
  (when self (Some layout1) wf1 filt1 ;;; when self (Some layout2) wf2 filt2) s =
  (when self (Some layout2) wf2 filt2 ;;; when self (Some layout1) wf1 filt1) s.
Proof.
  intros Hne. unfold bind.
  destruct (heap s !! self) as [c|] eqn:Hself.
  - rewrite !(when_layout_eval _ _ _ _ _ _ _ _ _ _ Hself).
    erewrite !when_layout_eval by apply lookup_insert_eq. simpl.
    rewrite !insert_insert_eq.
    rewrite (lookup_insert_ne _ layout1 layout2) by done.
    rewrite (lookup_insert_ne _ layout2 layout1) by done.
    by rewrite (insert_insert_ne _ layout1 layout2).
  - by rewrite !(when_unallocated _ _ _ _ _ _ _ _ _ Hself).
Qed.

(** X5: a per-layout [when] and a global [when] can be made in either
    order: neither reads nor writes what the other sets. *)
Theorem when_layout_global_commute s self layout wf1 filt1 wf2 filt2 :
  (when self (Some layout) wf1 filt1 ;;; when self None wf2 filt2) s =
  (when self None wf2 filt2 ;;; when self (Some layout) wf1 filt1) s.
Proof.
  unfold bind.
  destruct (heap s !! self) as [c|] eqn:Hself.
  - rewrite (when_layout_eval _ _ _ _ _ _ _ _ _ _ Hself).
    rewrite (when_global_eval _ _ _ _ _ _ _ _ _ Hself).
    erewrite when_layout_eval by apply lookup_insert_eq.
    erewrite when_global_eval by apply lookup_insert_eq. simpl.
    by rewrite !insert_insert_eq.
  - by rewrite !(when_unallocated _ _ _ _ _ _ _ _ _ Hself).
Qed.

(** X6: [when()] with no argument puts the global rule back to what
    [__init__] set: on a call whose global rule is still the initial one,
    any global [when] followed by [when()] leaves the store exactly as it
    was. *)
Theorem when_without_arguments_restores s self c wf filt :
  heap s !! self = Some c ->
  _when_floating c = true ->
  _filter c = bound_default_filter self ->
  (when self None wf filt ;;; when self None true None) s = (Return self, s).
Proof.
  intros Hself Hwf Hf. unfold bind.
  rewrite (when_global_eval _ _ _ _ _ _ _ _ _ Hself).
  erewrite when_global_eval by apply lookup_insert_eq. simpl.
  rewrite insert_insert_eq. f_equal.
  destruct s as [h w], c as [cl ar kw lr wfl fl]. simpl in *. subst.
  unfold set_filter, set_when_floating. simpl. by rewrite insert_id.
Qed.

(** ** Stores built by the API *)

Lemma filt_ok_insert (h : gmap loc (LazyCall PyObj CommandGraphCall UserCallable))
    l c filt :
  filt_ok h filt -> filt_ok (<[l := c]> h) filt.
Proof. destruct filt; [apply filter_ok_insert|done]. Qed.

Lemma when_chain_store_ok self rules :
  forall s,
    store_ok s ->
    Forall (fun r => filt_ok (heap s) r.2) rules ->
    store_ok (when_chain self rules s).2.
Proof.
  induction rules as [|[[layout wf] filt] rest IH]; intros s Hs Hrules; [done|].
  apply Forall_cons in Hrules as [Hfilt Hrest]. simpl in Hfilt.
  pose proof (when_store_ok _ _ _ _ s self (Some layout) wf filt Hs Hfilt) as Hs1.
  simpl. unfold bind.
  destruct (heap s !! self) as [c|] eqn:Hself.
  - rewrite (when_layout_eval _ _ _ _ _ _ _ _ _ _ Hself) in Hs1 |- *.
    apply IH; [exact Hs1|]. simpl.
    eapply Forall_impl; [exact Hrest|].
    intros r Hr. by apply filt_ok_insert.
  - by rewrite (when_unallocated _ _ _ _ _ _ _ _ _ Hself).
Qed.

(** X7: [execute], [when] and chains of [when] keep the rule tables
    complete: if every rule dictionary of a store holds a bool under
    "when_floating" and a callable under "filter", and every bound default
    filter belongs to a live object, the same is true of the store they
    leave (the callables passed as [filt] being such themselves). *)
Theorem api_keeps_store_ok s :
  store_ok s ->
  (forall call a k, store_ok (execute call a k s).2) /\
  (forall self layout wf filt,
     filt_ok (heap s) filt -> store_ok (when self layout wf filt s).2) /\
  (forall self rules,
     Forall (fun r => filt_ok (heap s) r.2) rules ->
     store_ok (when_chain self rules s).2).
Proof.
  intros Hs. split; [|split].
  - intros call a k. by apply init_store_ok.
  - intros self layout wf filt Hfilt. by apply when_store_ok.
  - intros self rules Hrules. by apply when_chain_store_ok.
Qed.

Lemma apply_builtin_filter s f q :
  filter_ok (heap s) f -> builtin_filter f ->
  exists b, forall code, apply_filter code f q s = (Return b, s).
Proof.
  destruct f as [l| |u]; simpl; [| |done].
  - intros [c Hl] _. eexists. intros code.
    apply (default_filter_eval _ _ _ _ _ _ _ _ Hl).
  - intros _ _. by exists true.
Qed.

(** X8: when no user callable is stored in a call (its global filter and
    the filters of its rules are default filters or [lambda q: True]),
    [check] is a function of the state alone: it raises nothing, changes
    nothing in the store, and its answer does not depend on the user's
    code. *)
Theorem check_without_user_callables s self c q :
  store_ok s ->
  heap s !! self = Some c ->
  builtin_rules c ->
  exists b, forall code, check code self q s = (Return b, s).
Proof.
  intros Hs Hself [Hglobal Hrules].
  destruct (Hs _ _ Hself) as [Hok_global Hok_rules].
  destruct (_layout_rules c !! Qtile.name (Qtile.current_layout q))
    as [d|] eqn:Hd.
  - destruct (Hok_rules _ _ Hd) as [[wf Hwf] (f & Hf & Hok)].
    destruct (apply_builtin_filter s f q Hok (Hrules _ _ _ Hd Hf)) as [b Hb].
    destruct (floating_window q) eqn:Hfl.
    + exists (wf && b). intros code.
      rewrite (check_eval_floating_rule _ _ _ _ code _ _ _ _ Hself _ _ Hfl Hd Hwf).
      destruct wf; simpl; [|done].
      unfold bind, dict_getitem. rewrite Hf. simpl. apply Hb.
    + exists b. intros code.
      rewrite (check_eval_rule _ _ _ _ code _ _ _ _ Hself _ Hfl Hd).
      unfold bind, dict_getitem. rewrite Hf. simpl. apply Hb.
  - destruct (apply_builtin_filter s (_filter c) q Hok_global Hglobal) as [b Hb].
    destruct (floating_window q) eqn:Hfl.
    + exists (_when_floating c && b). intros code.
      rewrite (check_eval_floating_global _ _ _ _ code _ _ _ _ Hself Hfl Hd).
      destruct (_when_floating c); simpl; [apply Hb|done].
    + exists b. intros code.
      rewrite (check_eval_global _ _ _ _ code _ _ _ _ Hself Hfl Hd). apply Hb.
Qed.

(** ** Accessors and other objects *)

Section Accessors.
Variables SelectorType : Type.
Variable call_selectors : CommandGraphCall -> list SelectorType.
Variable call_name : CommandGraphCall -> string.

(** X9: configuring a call does not change what it will execute: after
    [execute], any chain of per-layout [when] calls and a global [when],
    the accessors still return the selectors and name of the call and the
    args and kwargs that [execute] was given. *)
Theorem accessors_after_configuration s0 call a k self s rules wf filt :
  execute call a k s0 = (Return self, s) ->
  let s' := (when self None wf filt (when_chain self rules s).2).2 in
  selectors call_selectors self s' = (Return (call_selectors call), s') /\
  name call_name self s' = (Return (call_name call), s') /\
  args self s' = (Return a, s') /\
  kwargs self s' = (Return k, s').
Proof.
  intros Hexec.
  destruct (init_eval _ _ _ _ s0 call a k) as [Heval _].
  unfold execute in Hexec. rewrite Heval in Hexec.
  injection Hexec as <- <-.
  erewrite when_chain_eval by apply lookup_insert_eq. simpl.
  erewrite when_global_eval by apply lookup_insert_eq. simpl.
  unfold selectors, name, args, kwargs, bind, load, ret. simpl.
  by rewrite !lookup_insert_eq.
Qed.

End Accessors.

Lemma apply_own_filter s1 s2 other co f q code :
  heap s1 !! other = Some co ->
  heap s2 !! other = Some co ->
  own_filter other f ->
  exists b,
    apply_filter code f q s1 = (Return b, s1) /\
    apply_filter code f q s2 = (Return b, s2).
Proof.
  intros H1 H2 [->| ->]; simpl.
  - eexists. split; by apply default_filter_eval.
  - by exists true.
Qed.

Lemma check_own_rules s1 s2 other co q code :
  heap s1 !! other = Some co ->
  heap s2 !! other = Some co ->
  own_rules other co ->
  (check code other q s1).1 = (check code other q s2).1.
Proof.
  intros H1 H2 [Hglobal Hrules].
  destruct (floating_window q) eqn:Hfl;
    destruct (_layout_rules co !! Qtile.name (Qtile.current_layout q))
      as [d|] eqn:Hd.
  - destruct (d !! "when_floating") as [v|] eqn:Hv.
    + rewrite (check_eval_floating_rule _ _ _ _ code _ _ _ _ H1 _ _ Hfl Hd Hv).
      rewrite (check_eval_floating_rule _ _ _ _ code _ _ _ _ H2 _ _ Hfl Hd Hv).
      unfold py_and. destruct (truthy v); [|done].
      unfold bind, dict_getitem.
      destruct (d !! "filter") as [[b|f]|] eqn:Hf; simpl; try done.
      destruct (apply_own_filter s1 s2 other co f q code H1 H2
                  (Hrules _ _ _ Hd Hf)) as (b & -> & ->). done.
    + run. rewrite Hfl, H1, H2. simpl.
      rewrite Hd, bool_decide_eq_true_2 by eauto.
      by rewrite H1, H2, Hd, Hv.
  - rewrite (check_eval_floating_global _ _ _ _ code _ _ _ _ H1 Hfl Hd).
    rewrite (check_eval_floating_global _ _ _ _ code _ _ _ _ H2 Hfl Hd).
    unfold py_and. destruct (_when_floating co); [|done].
    destruct (apply_own_filter s1 s2 other co _ q code H1 H2 Hglobal)
      as (b & -> & ->). done.
  - rewrite (check_eval_rule _ _ _ _ code _ _ _ _ H1 _ Hfl Hd).
    rewrite (check_eval_rule _ _ _ _ code _ _ _ _ H2 _ Hfl Hd).
    unfold bind, dict_getitem.
    destruct (d !! "filter") as [[b|f]|] eqn:Hf; simpl; try done.
    destruct (apply_own_filter s1 s2 other co f q code H1 H2
                (Hrules _ _ _ Hd Hf)) as (b & -> & ->). done.
  - rewrite (check_eval_global _ _ _ _ code _ _ _ _ H1 Hfl Hd).
    rewrite (check_eval_global _ _ _ _ code _ _ _ _ H2 Hfl Hd).
    destruct (apply_own_filter s1 s2 other co _ q code H1 H2 Hglobal)
      as (b & -> & ->). done.
Qed.

(** X10: the rules of one call do not reach another: a [when] on [self],
    per-layout or global, leaves the answer of [check] on a different
    object unchanged, when that object stores no filter but its own
    default filter and [lambda q: True]. *)
Theorem when_does_not_reach_other_calls s self other co layout wf filt q :
  other <> self ->
  heap s !! other = Some co ->
  own_rules other co ->
  (check invoke other q (when self layout wf filt s).2).1 =
  (check invoke other q s).1.
Proof.
  intros Hne Hother Hown.
  apply (check_own_rules _ _ other co); [|done|done].
  destruct (heap s !! self) as [c|] eqn:Hself.
  - destruct layout as [layout|].
    + rewrite (when_layout_eval _ _ _ _ _ _ _ _ _ _ Hself). simpl.
      by rewrite lookup_insert_ne.
    + rewrite (when_global_eval _ _ _ _ _ _ _ _ _ Hself). simpl.
      by rewrite lookup_insert_ne.
  - by rewrite (when_unallocated _ _ _ _ _ _ _ _ _ Hself).
Qed.

End WhenComposition.

(** * The properties on the configuration *)

Lemma s_new_cmd : heap s_new !! cmd = Some c_new.
Proof. vm_compute. reflexivity. Defined.

Lemma s_columns_cmd : heap s_columns !! cmd = Some c_columns.
Proof. vm_compute. reflexivity. Defined.

Lemma s_columns_tiled_cmd u :
  heap (s_columns_tiled u) !! cmd = Some (c_columns_tiled u).
Proof. vm_compute. reflexivity. Defined.

Lemma s_filtered_cmd u : heap (s_filtered u) !! cmd = Some (c_filtered u).
Proof. vm_compute. reflexivity. Defined.

Lemma s_filtered_ok u : store_ok (s_filtered u).
Proof.
  apply when_store_ok; [|exact I].
  apply init_store_ok, store_ok_empty.
Defined.

(** [cmd.when(layout="columns", when_floating=False, filt=failing)] with a
    floating window in "columns": False, and [failing] was not called. *)
Lemma check_floating_layout_rule_witness :
  check user_code cmd (state "columns" (Some true) "a") (s_columns_tiled failing)
  = (Return false, s_columns_tiled failing).
Proof.
  refine (proj2 (check_floating_layout_rule _ _ _ _ user_code
            (s_columns_tiled failing) cmd (c_columns_tiled failing)
            (state "columns" (Some true) "a") "columns"
            (rule_dict ∅ false (callable failing)) false
            (s_columns_tiled_cmd failing) _ _ _ _) eq_refl);
    vm_compute; reflexivity.
Defined.

(** The same rule with [in_group_a], no window, group "a": True although
    when_floating is False. *)
Lemma check_layout_rule_not_floating_witness :
  check user_code cmd (state "columns" None "a") (s_columns_tiled in_group_a)
  = (Return true, s_columns_tiled in_group_a).
Proof.
  refine (eq_trans (check_layout_rule_not_floating _ _ _ _ user_code
            (s_columns_tiled in_group_a) cmd (c_columns_tiled in_group_a)
            (state "columns" None "a") "columns"
            (rule_dict ∅ false (callable in_group_a)) (callable in_group_a)
            (s_columns_tiled_cmd in_group_a) _ _ _ _) _);
    vm_compute; reflexivity.
Defined.

(** [cmd.when(when_floating=False)], floating window in layout "x": False. *)
Lemma check_floating_global_witness :
  check user_code cmd (state "x" (Some true) "a") s_tiled = (Return false, s_tiled).
Proof.
  refine (proj2 (check_floating_global _ _ _ _ user_code s_new cmd c_new
            (state "x" (Some true) "a") s_new_cmd _ _) None);
    vm_compute; reflexivity.
Defined.

(** [cmd.when(layout="columns")] only, layout "monadtall", no window:
    False; [cmd.when(filt=in_group_a)] in group "b": what the filter says. *)
Lemma check_default_global_filter_witness :
  check user_code cmd (state "monadtall" None "a") s_columns
  = (Return false, s_columns) /\
  check user_code cmd (state "max" None "b") (s_filtered in_group_a)
  = (Return false, s_filtered in_group_a).
Proof.
  split.
  - destruct (proj1 (check_default_global_filter _ _ _ _ user_code
                s_columns cmd c_columns
                (state "monadtall" None "a") s_columns_cmd eq_refl eq_refl)
              eq_refl) as (b & Hb & Hiff).
    rewrite Hb. replace b with false; [reflexivity|].
    symmetry. apply Hiff. split; [|reflexivity].
    intros Hempty. apply (f_equal size) in Hempty. vm_compute in Hempty.
    discriminate Hempty.
  - refine (eq_trans (proj2 (check_default_global_filter _ _ _ _ user_code
              (s_filtered in_group_a) cmd (c_filtered in_group_a)
              (state "max" None "b") (s_filtered_cmd in_group_a) eq_refl eq_refl)
              in_group_a eq_refl) _).
    vm_compute. reflexivity.
Defined.

(** [cmd.when(layout="columns", when_floating=False)] on the new call. *)
Lemma when_frame_witness :
  exists c',
    when cmd (Some "columns") false None s_new
    = (Return cmd, {| heap := <[cmd := c']> (heap s_new); world := [] |}) /\
    _call c' = toscreen /\ _args c' = [1%Z] /\
    _when_floating c' = true /\ _filter c' = bound_default_filter cmd /\
    _layout_rules c' !! "monadtall" = None /\
    _layout_rules c' !! "columns" = Some (rule_dict ∅ false lambda_True).
Proof.
  destruct (proj1 (when_frame _ _ _ _ s_new cmd c_new false None s_new_cmd) "columns")
    as (c' & Hwhen & Hcall & Hargs & _ & Hwf & Hf & Hother & Hrule).
  exists c'. split; [exact Hwhen|].
  split; [exact Hcall|]. split; [exact Hargs|].
  split; [exact Hwf|]. split; [exact Hf|].
  split; [|exact Hrule].
  rewrite Hother; [reflexivity|discriminate].
Defined.

(** [cmd.when(filt=failing)], no window: the exception of [check] is the
    exception of [failing]. *)
Lemma check_raises_only_the_filter_exception_witness :
  check user_code cmd (state "max" None "a") (s_filtered failing)
  = (Raise (UserException "boom"), s_filtered failing) /\
  exists u,
    _filter (c_filtered failing) = callable u /\
    user_code u (state "max" None "a") (s_filtered failing)
    = (Raise (UserException "boom"), s_filtered failing).
Proof.
  split; [vm_compute; reflexivity|].
  destruct (check_raises_only_the_filter_exception _ _ _ _ user_code
              (s_filtered failing) cmd (c_filtered failing)
              (state "max" None "a") (s_filtered_ok failing)
              (s_filtered_cmd failing))
    as (wf & f & Hsel & _ & _ & _ & Hraise).
  destruct (Hraise (UserException "boom") (s_filtered failing))
    as (u & Hf & Hu); [vm_compute; reflexivity|].
  exists u. split; [|exact Hu].
  destruct Hsel as [(d & Hd & _)|(_ & _ & Hglobal)].
  - vm_compute in Hd. discriminate Hd.
  - rewrite <- Hglobal. exact Hf.
Defined.

(** [cmd.when(filt=logging)], no window: [logging] writes to the log and
    leaves [cmd] alone, and so does [check]. *)
Lemma check_preserves_rules_witness :
  heap (check user_code cmd (state "max" None "a") (s_filtered logging)).2
  = heap (s_filtered logging).
Proof.
  refine (proj1 (check_preserves_rules _ _ _ _ user_code
            (s_filtered logging) cmd (c_filtered logging)
            (state "max" None "a") (s_filtered_cmd logging) _)).
  intros u [(d & Hd & _)|(_ & Hglobal)].
  - vm_compute in Hd. discriminate Hd.
  - injection Hglobal as <-. reflexivity.
Defined.

(** ** Evaluations *)

(** No [when] at all: fires with no window in any layout. *)
Example fresh_call_fires :
  check user_code cmd (state "any" None "a") s_new = (Return true, s_new).
Proof. vm_compute. reflexivity. Qed.

(** [cmd.when(filt=in_group_a)] in group "a". *)
Example filtered_call_in_group_a :
  check user_code cmd (state "max" None "a") (s_filtered in_group_a)
  = (Return true, s_filtered in_group_a).
Proof. vm_compute. reflexivity. Qed.

(** A filter that is called leaves its trace; refused beforehand for a
    floating window, it leaves none. *)
Example logging_filter_called :
  world (check user_code cmd (state "columns" None "a") (s_columns_tiled logging)).2
  = ["called"].
Proof. vm_compute. reflexivity. Qed.

Example logging_filter_not_called :
  world (check user_code cmd (state "columns" (Some true) "a") (s_columns_tiled logging)).2
  = [].
Proof. vm_compute. reflexivity. Qed.

(** The exception of a per-layout filter leaves [check] as it is. *)
Example failing_filter_propagates :
  check user_code cmd (state "columns" None "a") (s_columns_tiled failing)
  = (Raise (UserException "boom"), s_columns_tiled failing).
Proof. vm_compute. reflexivity. Qed.

(** Indexing the defaultdict with a missing key does add an entry; [check]
    never does so. *)
Example defaultdict_getitem_inserts :
  _layout_rules <$> heap (defaultdict_getitem cmd "max" s_new).2 !! cmd
  = Some {[ "max" := ∅ ]}.
Proof. vm_compute. reflexivity. Qed.

Example check_does_not_insert :
  _layout_rules <$> heap (check user_code cmd (state "max" None "a") s_new).2 !! cmd
  = Some ∅.
Proof. vm_compute. reflexivity. Qed.

(** A filter that reconfigures the call it guards is outside the proviso
    of [check_preserves_rules]: the rule table does change. *)
Example add_rule_filter_changes_rules :
  _layout_rules <$> heap (check user_code cmd (state "max" None "a") (s_filtered add_rule)).2 !! cmd
  = Some {[ "max" := rule_dict ∅ true lambda_True ]}.
Proof. vm_compute. reflexivity. Qed.

(** A second [execute] returns another object. *)
Example execute_twice :
  (execute toscreen [2%Z] ∅ s_new).1 = Return 2%positive.
Proof. vm_compute. reflexivity. Qed.

(** Overwriting a rule. *)
Example when_overwrites_rule :
  (when cmd (Some "columns") false None (s_columns_tiled failing)).2
  = (when cmd (Some "columns") false None s_new).2.
Proof. vm_compute. reflexivity. Qed.

(** ** Chains and compositions on the configuration *)

Lemma s_new_execute : execute toscreen [1%Z] ∅ empty_store = (Return cmd, s_new).
Proof. vm_compute. reflexivity. Defined.

Lemma s_new_ok : store_ok s_new.
Proof. apply init_store_ok, store_ok_empty. Defined.

Lemma s_columns_ok : store_ok s_columns.
Proof. apply when_store_ok; [exact s_new_ok|exact I]. Defined.

Lemma c_new_own_rules : own_rules cmd c_new.
Proof.
  split; [by left|]. intros layout d f Hd. simpl in Hd.
  rewrite lookup_empty in Hd. discriminate Hd.
Defined.

Lemma c_columns_builtin_rules : builtin_rules c_columns.
Proof.
  split; [exact I|]. intros layout d f Hd Hf. simpl in Hd.
  apply lookup_singleton_Some in Hd as [_ <-].
  rewrite rule_dict_filter in Hf. by injection Hf as <-.
Defined.

(** The chain of the docstring in a layout it does not name, "max", with
    a floating window. *)
Lemma when_chain_refuses_other_layouts_witness :
  check user_code cmd (state "max" (Some true) "a") s_docstring
  = (Return false, s_docstring).
Proof.
  refine (when_chain_refuses_other_layouts _ _ _ _ user_code empty_store
            toscreen [1%Z] ∅ cmd s_new docstring_rules
            (state "max" (Some true) "a") s_new_execute _).
  refine (bool_decide_unpack _ _). vm_compute. exact I.
Defined.


Lemma when_chain_frame_witness :
  exists c',
    when_chain cmd docstring_rules s_new
    = (Return cmd, {| heap := <[cmd := c']> (heap s_new); world := [] |}) /\
    _args c' = [1%Z] /\ _when_floating c' = true /\
    _filter c' = bound_default_filter cmd /\
    _layout_rules c' !! "max" = None.
Proof.
  destruct (when_chain_frame _ _ _ _ s_new cmd c_new docstring_rules s_new_cmd)
    as (c' & Hchain & _ & Hargs & _ & Hwf & Hf & Hother & _).
  exists c'. split; [exact Hchain|]. split; [exact Hargs|].
  split; [exact Hwf|]. split; [exact Hf|].
  rewrite Hother; [reflexivity|].
  refine (bool_decide_unpack _ _). vm_compute. exact I.
Defined.

Lemma when_layouts_commute_witness :
  (when cmd (Some "columns") false None ;;; when cmd (Some "monadtall") true None) s_new
  = (when cmd (Some "monadtall") true None ;;; when cmd (Some "columns") false None) s_new.
Proof.
  apply (when_layouts_commute _ _ _ _ s_new cmd "columns" false None
           "monadtall" true None).
  discriminate.
Defined.

(** [cmd.when(when_floating=False, filt=failing).when()] *)
Lemma when_without_arguments_restores_witness :
  (when cmd None false (Some (callable failing)) ;;; when cmd None true None) s_new
  = (Return cmd, s_new).
Proof.
  exact (when_without_arguments_restores _ _ _ _ s_new cmd c_new false
           (Some (callable failing)) s_new_cmd eq_refl eq_refl).
Defined.

Lemma api_keeps_store_ok_witness : store_ok s_docstring.
Proof.
  apply (api_keeps_store_ok _ _ _ _ s_new s_new_ok).
  repeat constructor.
Defined.

Lemma check_without_user_callables_witness :
  exists b, forall code,
    check code cmd (state "columns" (Some true) "a") s_columns
    = (Return b, s_columns).
Proof.
  exact (check_without_user_callables _ _ _ _ s_columns cmd c_columns
           (state "columns" (Some true) "a") s_columns_ok s_columns_cmd
           c_columns_builtin_rules).
Defined.

(** [cmd.when(layout="columns", when_floating=False).when(layout="monadtall")
    .when(when_floating=False)] *)
Lemma accessors_after_configuration_witness :
  let s' := (when cmd None false None s_docstring).2 in
  selectors fst cmd s' = (Return ["group"], s') /\
  name snd cmd s' = (Return "toscreen", s') /\
  args cmd s' = (Return [1%Z], s') /\
  kwargs cmd s' = (Return ∅, s').
Proof.
  exact (accessors_after_configuration _ _ _ _ _ fst snd empty_store
           toscreen [1%Z] ∅ cmd s_new docstring_rules false None s_new_execute).
Defined.

(** A rule given to [cmd2] and the answer of [cmd]. *)
Lemma when_does_not_reach_other_calls_witness :
  (check user_code cmd (state "max" None "a")
     (when cmd2 (Some "columns") true None s_two).2).1
  = (check user_code cmd (state "max" None "a") s_two).1.
Proof.
  apply (when_does_not_reach_other_calls _ _ _ _ user_code s_two cmd2 cmd c_new).
  - discriminate.
  - vm_compute. reflexivity.
  - exact c_new_own_rules.
Defined.

(** ** More evaluations *)

(** The two examples of the docstring of [when] that chain per-layout
    rules. *)
Example docstring_chain_in_monadtall :
  check user_code cmd (state "monadtall" (Some true) "a") s_docstring
  = (Return true, s_docstring).
Proof. vm_compute. reflexivity. Qed.

Example docstring_chain_in_columns_tiled :
  check user_code cmd (state "columns" None "a") s_docstring
  = (Return true, s_docstring).
Proof. vm_compute. reflexivity. Qed.

(** [cmd] still fires everywhere after [cmd2] got a rule. *)
Example other_call_still_fires :
  (check user_code cmd (state "max" None "a")
     (when cmd2 (Some "columns") true None s_two).2).1
  = Return true.
Proof. vm_compute. reflexivity. Qed.
